(** * The lab-08 notebook: predator-prey and pendulum right-hand sides

    A shallow embedding of [notebooks/lab-08.ipynb].  The notebook defines
    the right-hand side [drfdt] of a predator-prey system, hands it to
    SciPy's [odeint], minimises the rabbit population with SciPy's
    [minimize], and leaves the pendulum right-hand side [dthetavdt] to the
    student.

    The arithmetic of the notebook is whatever its inputs carry: Python
    evaluates [0.08*r - 0.0004*r*f] on NumPy binary64 scalars, and the text
    around the code reasons about the same expression over the reals.  The
    embedding is therefore written once, over an interface [PyNum], and
    read at two instances: the real numbers and IEEE binary64.

    Layout: results and numbers; the two right-hand sides; the solver as a
    parameter with its contract; the kernel state in which the cells run;
    then the properties, first of the right-hand sides as functions, then
    of the solver calls, then of the cells as state transformers. *)

From Stdlib Require Import Floats.PrimFloat.
From Stdlib Require Import String Bool List ZArith QArith Reals Lra Lia Sorted.
From Stdlib Require Numbers.Cyclic.Int63.Uint63.
From Stdlib Require Floats.FloatAxioms Floats.SpecFloat Floats.FloatOps.
Import ListNotations.

(** ** Exceptions and results *)

(** The exceptions the notebook's own statements can raise: unpacking a
    sequence of the wrong length, indexing past the end, reading a name no
    cell has bound, and using an object as something it is not. *)
Inductive exn : Set :=
| ValueError
| IndexError
| NameError
| TypeError.

Inductive res (X : Type) : Type :=
| Ok (x : X)
| Raise (e : exn).

Arguments Ok {X} x.
Arguments Raise {X} e.

Definition bind {X Y : Type} (c : res X) (k : X -> res Y) : res Y :=
  match c with
  | Ok x => k x
  | Raise e => Raise e
  end.

Declare Scope py_scope.
Delimit Scope py_scope with py.

Notation "x <- c ;; k" := (bind c (fun x => k))
  (at level 61, c at next level, right associativity) : py_scope.
Notation "' pat <- c ;; k" := (bind c (fun x => match x with pat => k end))
  (at level 61, pat pattern, c at next level, right associativity) : py_scope.

(** ** Numbers *)

(** What the notebook asks of a number: the four operations, negation,
    comparison, the test [==], and the value of a decimal literal of the
    source text. *)
Class PyNum (A : Type) : Type := {
  num_add : A -> A -> A;
  num_sub : A -> A -> A;
  num_mul : A -> A -> A;
  num_div : A -> A -> A;
  num_neg : A -> A;
  num_lt : A -> A -> Prop;
  num_le : A -> A -> Prop;
  num_eqb : A -> A -> bool;
  lit : Q -> A
}.

Arguments lit {A _} q%_Q.

Declare Scope num_scope.
Delimit Scope num_scope with num.

Infix "+" := num_add : num_scope.
Infix "-" := num_sub : num_scope.
Infix "*" := num_mul : num_scope.
Infix "/" := num_div : num_scope.
Notation "- x" := (num_neg x) : num_scope.
Infix "<" := num_lt : num_scope.
Infix "<=" := num_le : num_scope.

(** Exact real arithmetic: a literal denotes the rational it spells. *)
#[export] Instance PyNum_R : PyNum R := {
  num_add := Rplus;
  num_sub := Rminus;
  num_mul := Rmult;
  num_div := Rdiv;
  num_neg := Ropp;
  num_lt := Rlt;
  num_le := Rle;
  num_eqb := fun a b => if Req_dec_T a b then true else false;
  lit := Q2R
}.

(** IEEE binary64, the arithmetic of Python's [float] and of NumPy's
    [float64]: every operation rounds to nearest, ties to even.  A literal
    [n/10^k] is the correctly rounded quotient of two exactly representable
    integers, which is the binary64 number nearest to the decimal. *)
Module Binary64.

Definition of_Z (z : Z) : float :=
  if (z <? 0)%Z
  then PrimFloat.opp (PrimFloat.of_uint63 (Uint63.of_Z (- z)))
  else PrimFloat.of_uint63 (Uint63.of_Z z).

Definition of_Q (q : Q) : float :=
  PrimFloat.div (of_Z (Qnum q)) (of_Z (Zpos (Qden q))).

Definition lt (x y : float) : Prop := PrimFloat.ltb x y = true.
Definition le (x y : float) : Prop := PrimFloat.leb x y = true.

End Binary64.

#[export] Instance PyNum_binary64 : PyNum float := {
  num_add := PrimFloat.add;
  num_sub := PrimFloat.sub;
  num_mul := PrimFloat.mul;
  num_div := PrimFloat.div;
  num_neg := PrimFloat.opp;
  num_lt := Binary64.lt;
  num_le := Binary64.le;
  num_eqb := PrimFloat.eqb;
  lit := Binary64.of_Q
}.

(** ** Sequences *)

(** [r, f = rf]: unpacking raises [ValueError] unless the sequence has
    exactly two items. *)
Definition unpack2 {A : Type} (xs : list A) : res (A * A) :=
  match xs with
  | [a; b] => Ok (a, b)
  | _ => Raise ValueError
  end.

(** [numpy.array] of a list of scalars: the same items, in order. *)
Definition array {A : Type} (xs : list A) : list A := xs.

(** ** The predator-prey right-hand side *)

Section Derivatives.

Context {A : Type} `{PyNum A}.
Local Open Scope num_scope.
Local Open Scope py_scope.

(** [[
    def drfdt(rf, t):
        r, f = rf
        drdt = 0.08*r - 0.0004*r*f
        dfdt = -0.09*f + 0.0005*r*f
        return array([drdt, dfdt])
    ]] *)
Definition drfdt (rf : list A) (t : A) : res (list A) :=
  '(r, f) <- unpack2 rf ;;
  let drdt := lit 0.08 * r - lit 0.0004 * r * f in
  let dfdt := - lit 0.09 * f + lit 0.0005 * r * f in
  Ok (array [drdt; dfdt]).

End Derivatives.

(** ** Indexing *)

(** [xs[i]] with Python's negative indices: [xs[-1]] is the last item, and
    an index outside [-len(xs) .. len(xs)-1] raises [IndexError]. *)
Definition getitem {X : Type} (xs : list X) (i : Z) : res X :=
  let n := Z.of_nat (length xs) in
  let j := if (i <? 0)%Z then (n + i)%Z else i in
  if ((0 <=? j) && (j <? n))%Z
  then match nth_error xs (Z.to_nat j) with
       | Some x => Ok x
       | None => Raise IndexError
       end
  else Raise IndexError.

(** [m[i, j]] on a two-dimensional array stored by rows. *)
Definition getitem2 {X : Type} (m : list (list X)) (i j : Z) : res X :=
  bind (getitem m i) (fun row => getitem row j).

(** ** The pendulum right-hand side *)

Local Open Scope R_scope.

Definition g_over_L : R := 10.

(** Modelled from the spec: the body of [dthetavdt], which the notebook
    leaves to the student (its cell holds only the [def] line).  Section 4.1:
    the state is (theta, v) and the derivative is (v, -(g/L) sin theta) with
    g/L fixed at 10, with no dependence on t.  The sine is the real one, so
    the function is stated over the reals only. *)
Definition dthetavdt (thetav : list R) (t : R) : res (list R) :=
  bind (unpack2 thetav) (fun '(theta, v) =>
  Ok (array [v; - (g_over_L * sin theta)])).

(** [numpy.allclose(a, b)] with its default tolerances: every item of [a] is
    within [atol + rtol * |b|] of the matching item of [b]. *)
Definition rtol : R := 1 / 100000.
Definition atol : R := 1 / 100000000.

Definition isclose (a b : R) : Prop :=
  Rabs (a - b) <= atol + rtol * Rabs b.

Definition allclose (a b : list R) : Prop := Forall2 isclose a b.

(** The three asserts of the grading cell, each on the value the call
    returns. *)
Definition passes (call : res (list R)) (expected : list R) : Prop :=
  exists d, call = Ok d /\ allclose d expected.

Definition acceptance_cell : Prop :=
  passes (dthetavdt [PI / 2; 0] 0) [0; -10.0] /\
  passes (dthetavdt [PI / 12; 0] 0) [0; -2.5881904510252074] /\
  passes (dthetavdt [0; 1] 0) [1; 0].

Local Close Scope R_scope.

(** ** The initial-value-problem solver *)

Section Solver.

Context {A : Type} `{PyNum A}.
Local Open Scope num_scope.
Local Open Scope py_scope.

(** A right-hand side [f(y, t)] and the call shape of [odeint(f, y0, t)]:
    the trajectory is a two-dimensional array, one row per time point. *)
Definition rhs : Type := list A -> A -> res (list A).
Definition solver : Type := rhs -> list A -> list A -> res (list (list A)).

(** The invariant of the data model: on states of dimension [n] the
    right-hand side returns, and returns a vector of dimension [n]. *)
Definition dimension_preserving (f : rhs) (n : nat) : Prop :=
  forall y t, length y = n -> exists d, f y t = Ok d /\ length d = n.

(** A time sequence: each time point is at most the next one. *)
Definition nondecreasing (ts : list A) : Prop := Sorted num_le ts.

(** Modelled from the spec: the external solver, SciPy's [odeint], whose
    code is not part of the repository.  Sections 3 and 4.2: given a
    derivative function of the right dimension, an initial state [y0] and
    a non-decreasing time sequence whose first entry [t0] is the time of
    [y0], the solver returns a trajectory with one state per entry of the
    sequence, each the state at that query time.  The model keeps exactly
    that much: a row depends on its query time only, so the rows are the
    values at the query times of one curve, and the curve passes through
    [y0] at [t0], where the state is given and not computed.  How well the
    curve follows the differential equation elsewhere is the solver's own
    business and is left open. *)
Definition ivp_contract (solve : solver) : Prop :=
  forall (f : rhs) (y0 : list A) (t0 : A) (ts : list A),
    dimension_preserving f (length y0) ->
    nondecreasing (t0 :: ts) ->
    exists y : A -> list A,
      y t0 = y0 /\ solve f y0 (t0 :: ts) = Ok (map y (t0 :: ts)).

(** The integer [i] as a number, as [arange] and the integer literals of
    the source give it. *)
Definition num_of_nat (i : nat) : A := lit (inject_Z (Z.of_nat i)).

(** [numpy.linspace(start, stop, num)]: [num] evenly spaced points.  With
    [div = num - 1], [delta = stop - start] and [step = delta / div], NumPy
    computes [arange(0, num) * step + start], or
    [arange(0, num) / div * delta + start] when [step == 0] (a step that
    underflows), and then sets the last point to [stop] itself.  A single
    point has no step and is computed as [0 * delta + start]. *)
Definition linspace (start stop : A) (num : nat) : list A :=
  let delta := stop - start in
  match num with
  | O => []
  | S O => [num_of_nat 0 * delta + start]
  | S div =>
      let step := delta / num_of_nat div in
      if num_eqb step (lit 0)
      then map (fun i => num_of_nat i / num_of_nat div * delta + start)
               (seq 0 div) ++ [stop]
      else map (fun i => num_of_nat i * step + start) (seq 0 div) ++ [stop]
  end.

Variable odeint : solver.

(** [[
    t = linspace(0, 100, 100)
    rf = odeint(drfdt, [300, 100], t)
    ]] *)
Definition population_curve : res (list (list A)) :=
  let t := linspace (lit 0) (lit 100) 100 in
  odeint drfdt [lit 300; lit 100] t.

(** [[
    def rabbits(t):
        return odeint(drfdt, [300, 100], [0, t])[-1, 0]
    ]] *)
Definition rabbits (t : A) : res A :=
  traj <- odeint drfdt [lit 300; lit 100] [lit 0; t] ;;
  getitem2 traj (-1) 0.

End Solver.

(** ** The kernel: objects, global names and printed output *)

(** A notebook's cells run one after another in one Python process.  What a
    later cell or call can observe of an earlier one is the objects that
    exist, the names the cells have bound, and what was printed. *)

Section Kernel.

Context {A : Type} `{PyNum A}.
Local Open Scope num_scope.

(** The record [minimize] returns: the minimiser found, whether the search
    converged (with its status code and message), and the objective there. *)
Record OptimizeResult : Type := {
  x : list A;
  success : bool;
  status : Z;
  message : string;
  fun_ : A
}.

Definition minimizer : Type := (A -> res A) -> A -> res OptimizeResult.

Inductive obj : Type :=
| Array (xs : list A)
| Matrix (rows : list (list A))
| Result (r : OptimizeResult)
| Function (name : string).

(** One argument of a [print] call. *)
Inductive shown : Type :=
| Text (s : string)
| Num (a : A)
| Repr (o : obj).

Record kernel : Type := {
  objects : list obj;
  globals : list (string * nat);
  stdout : list (list shown)
}.

Definition St (X : Type) : Type := kernel -> res X * kernel.

Definition bindS {X Y : Type} (c : St X) (f : X -> St Y) : St Y :=
  fun k =>
    match c k with
    | (Ok v, k') => f v k'
    | (Raise e, k') => (Raise e, k')
    end.

Definition lift {X : Type} (r : res X) : St X := fun k => (r, k).

(** A new object gets the next free address; nothing that exists moves. *)
Definition extend (k : kernel) (os : list obj) : kernel :=
  {| objects := objects k ++ os; globals := globals k; stdout := stdout k |}.

Definition alloc (o : obj) : St nat :=
  fun k => (Ok (length (objects k)), extend k [o]).

Definition load (a : nat) : St obj :=
  fun k =>
    match nth_error (objects k) a with
    | Some o => (Ok o, k)
    | None => (Raise TypeError, k)
    end.

Definition as_array (o : obj) : res (list A) :=
  match o with
  | Array xs => Ok xs
  | _ => Raise TypeError
  end.

Definition as_matrix (o : obj) : res (list (list A)) :=
  match o with
  | Matrix rows => Ok rows
  | _ => Raise TypeError
  end.

Definition as_result (o : obj) : res OptimizeResult :=
  match o with
  | Result r => Ok r
  | _ => Raise TypeError
  end.

Fixpoint lookup (name : string) (env : list (string * nat)) : option nat :=
  match env with
  | [] => None
  | (n, a) :: env' => if String.eqb n name then Some a else lookup name env'
  end.

Definition getglobal (name : string) : St nat :=
  fun k =>
    match lookup name (globals k) with
    | Some a => (Ok a, k)
    | None => (Raise NameError, k)
    end.

Definition setglobal (name : string) (a : nat) : St unit :=
  fun k =>
    (Ok tt, {| objects := objects k;
               globals := (name, a) :: globals k;
               stdout := stdout k |}).

Definition print (line : list shown) : St unit :=
  fun k =>
    (Ok tt, {| objects := objects k;
               globals := globals k;
               stdout := stdout k ++ [line] |}).

End Kernel.

Arguments OptimizeResult A : clear implicits.
Arguments obj A : clear implicits.
Arguments shown A : clear implicits.
Arguments kernel A : clear implicits.
Arguments St A X : clear implicits.
Arguments minimizer A : clear implicits.

Declare Scope st_scope.
Delimit Scope st_scope with st.

Notation "x <- c ;; k" := (bindS c (fun x => k))
  (at level 61, c at next level, right associativity) : st_scope.
Notation "' pat <- c ;; k" := (bindS c (fun x => match x with pat => k end))
  (at level 61, pat pattern, c at next level, right associativity) : st_scope.
Notation "c ;; k" := (bindS c (fun _ => k))
  (at level 61, right associativity) : st_scope.

Section Notebook.

Context {A : Type} `{PyNum A}.
Local Open Scope num_scope.
Local Open Scope st_scope.

Variable odeint : solver (A := A).

(** The solver called on two objects of the kernel: it reads the initial
    state and the time sequence and returns a new two-dimensional array.
    The solver itself is an external function of the values; the arrays it
    passes to the right-hand side while it runs are its own. *)
Definition odeint_st (f : rhs) (y0 ts : nat) : St A nat :=
  o0 <- load y0 ;;
  ys <- lift (as_array o0) ;;
  o1 <- load ts ;;
  tv <- lift (as_array o1) ;;
  traj <- lift (odeint f ys tv) ;;
  alloc (Matrix traj).

Variable minimize : minimizer A.

(** The two statements that follow [def rabbits] in its cell (the [def]
    itself is [cell_def_rabbits] below):
    [[
    result = minimize(rabbits, 40)
    print(result)
    ]] *)
Definition cell_minimize : St A unit :=
  result <- lift (minimize (rabbits odeint) (lit 40)) ;;
  a <- alloc (Result result) ;;
  setglobal "result" a ;;
  a' <- getglobal "result" ;;
  o <- load a' ;;
  print [Repr o].

(** [[
    print('rabbits rebounded after', result.x[0], 'years')
    ]] *)
Definition cell_report : St A unit :=
  a <- getglobal "result" ;;
  o <- load a ;;
  result <- lift (as_result o) ;;
  x0 <- lift (getitem (x result) 0) ;;
  print [Text "rabbits rebounded after"; Num x0; Text "years"].

End Notebook.

(** ** A concrete solver *)

(** Euler's method on the time grid it is given: from the state [y] at time
    [t] the next row is [y + (t' - t) * f(y, t)].  It is the simplest solver
    with the call shape of [odeint] and serves as the instance on which the
    solver contract is exercised. *)

Section Euler.

Context {A : Type} `{PyNum A}.
Local Open Scope num_scope.
Local Open Scope py_scope.

Fixpoint axpy (h : A) (d y : list A) : list A :=
  match y, d with
  | yi :: y', di :: d' => (yi + h * di) :: axpy h d' y'
  | _, _ => []
  end.

Fixpoint euler_from (f : rhs) (y : list A) (t : A) (ts : list A)
  : res (list (list A)) :=
  match ts with
  | [] => Ok []
  | t' :: ts' =>
      d <- f y t ;;
      let y' := axpy (t' - t) d y in
      rows <- euler_from f y' t' ts' ;;
      Ok (y' :: rows)
  end.

Definition euler : solver :=
  fun f y0 ts =>
    match ts with
    | [] => Ok []
    | t0 :: ts' =>
        rows <- euler_from f y0 t0 ts' ;;
        Ok (y0 :: rows)
    end.

End Euler.

(** ** Binary64 constants and checks *)

Module Binary64Data.

(** The two neighbours of the thresholds 200 and 180 in binary64. *)
Definition below_200 : float := 0x1.8ffffffffffffp+7%float.
Definition above_180 : float := 0x1.6800000000001p+7%float.

(** The four coefficients as Python reads them. *)
Definition c_0_08 : float := 0x1.47ae147ae147bp-4%float.
Definition c_0_0004 : float := 0x1.a36e2eb1c432dp-12%float.
Definition c_0_09 : float := 0x1.70a3d70a3d70ap-4%float.
Definition c_0_0005 : float := 0x1.0624dd2f1a9fcp-11%float.

Fixpoint nondecreasingb (ts : list float) : bool :=
  match ts with
  | [] => true
  | t :: ts' =>
      match ts' with
      | [] => true
      | t' :: _ => PrimFloat.leb t t' && nondecreasingb ts'
      end
  end.

End Binary64Data.

(** ** Kernels and minimizers to run the cells on *)

Section Observations.

Context {A : Type} `{PyNum A}.

(** A kernel in which no cell has run yet. *)
Definition fresh_kernel : kernel A :=
  {| objects := []; globals := []; stdout := [] |}.

(** Two stand-ins for the minimizer, used to exercise the cells: both
    return the starting point, one reporting convergence and one not. *)
Definition minimize_converged : minimizer A :=
  fun g x0 =>
    bind (g x0) (fun v =>
    Ok {| x := [x0]; success := true; status := 0%Z;
          message := "Optimization terminated successfully.";
          fun_ := v |}).

Definition minimize_stalled : minimizer A :=
  fun g x0 =>
    bind (g x0) (fun v =>
    Ok {| x := [x0]; success := false; status := 2%Z;
          message := "Desired error not necessarily achieved due to precision loss.";
          fun_ := v |}).

End Observations.

(** ** What the last cell prints *)

Section Report.

Context {A : Type} `{PyNum A}.

(** The line the last cell prints for a result record: it is made from
    [x[0]] and from nothing else of the record. *)
Definition report_lines (r : OptimizeResult A) : list (list (shown A)) :=
  match x r with
  | x0 :: _ => [[Text "rabbits rebounded after"; Num x0; Text "years"]]
  | [] => []
  end.

Definition report_outcome (r : OptimizeResult A) : res unit :=
  match x r with
  | _ :: _ => Ok tt
  | [] => Raise IndexError
  end.

End Report.

(** ** The forty-year cell *)

Section FortyYears.

Context {A : Type} `{PyNum A}.
Local Open Scope num_scope.
Local Open Scope st_scope.

Variable odeint : solver (A := A).

(** [[
    rf = odeint(drfdt, [300, 100], [0, 40])
    print(rf[-1, 0], 'rabbits')
    print(rf[-1, 1], 'foxes')
    ]] *)
Definition cell_forty : St A unit :=
  y0 <- alloc (Array [lit 300; lit 100]) ;;
  ts <- alloc (Array [lit 0; lit 40]) ;;
  a <- odeint_st odeint drfdt y0 ts ;;
  setglobal "rf" a ;;
  a0 <- getglobal "rf" ;;
  o0 <- load a0 ;;
  m0 <- lift (as_matrix o0) ;;
  v <- lift (getitem2 m0 (-1) 0) ;;
  print [Num v; Text "rabbits"] ;;
  a1 <- getglobal "rf" ;;
  o1 <- load a1 ;;
  m1 <- lift (as_matrix o1) ;;
  w <- lift (getitem2 m1 (-1) 1) ;;
  print [Num w; Text "foxes"].

End FortyYears.

(** ** The cell that defines [rabbits] and minimizes it *)

Section RabbitsCell.

Context {A : Type} `{PyNum A}.
Local Open Scope st_scope.

(** [def rabbits(t): ...] as a statement: it creates a function object and
    binds the global name [rabbits] to it.  The body does not run. *)
Definition cell_def_rabbits : St A unit :=
  a <- alloc (Function "rabbits") ;;
  setglobal "rabbits" a.

Variable odeint : solver (A := A).
Variable minimize : minimizer A.

(** The whole cell:
    [[
    def rabbits(t):
        return odeint(drfdt, [300, 100], [0, t])[-1, 0]

    result = minimize(rabbits, 40)
    print(result)
    ]] *)
Definition cell_rabbits_minimize : St A unit :=
  cell_def_rabbits ;;
  cell_minimize odeint minimize.

End RabbitsCell.

(** ** A conserved quantity of the predator-prey system *)

(** The classical first integral of a Lotka-Volterra system, with the
    coefficients of [drfdt]: it is defined where both populations are
    positive. *)
Definition lv_invariant (r f : R) : R :=
  (0.0005 * r - 0.09 * ln r + 0.0004 * f - 0.08 * ln f)%R.

(** ** The grading cell on other answers *)

(** The three asserts of the grading cell, on any function handed in as
    [dthetavdt]. *)
Definition acceptance_of (answer : list R -> R -> res (list R)) : Prop :=
  (passes (answer [PI / 2; 0] 0) [0; -10.0] /\
   passes (answer [PI / 12; 0] 0) [0; -2.5881904510252074] /\
   passes (answer [0; 1] 0) [1; 0])%R.

(** Two answers a student may hand in: the pendulum with another value of
    g/L, and the small-angle pendulum, in which sin(theta) is replaced by
    theta. *)
Definition pendulum_with (c : R) (thetav : list R) (t : R) : res (list R) :=
  bind (unpack2 thetav) (fun '(theta, v) =>
  Ok (array [v; (- (c * sin theta))%R])).

Definition small_angle (thetav : list R) (t : R) : res (list R) :=
  bind (unpack2 thetav) (fun '(theta, v) =>
  Ok (array [v; (- (10 * theta))%R])).

(** * Properties *)

(** ** Results *)

Lemma unpack2_Ok {A : Type} (xs : list A) :
  length xs = 2%nat -> exists a b, xs = [a; b] /\ unpack2 xs = Ok (a, b).
Proof.
  destruct xs as [|a [|b [|c xs]]]; simpl; intros Hlen; try discriminate.
  exists a, b. split; reflexivity.
Qed.

Lemma unpack2_Raise {A : Type} (xs : list A) :
  length xs <> 2%nat -> unpack2 xs = Raise ValueError.
Proof.
  destruct xs as [|a [|b [|c xs]]]; simpl; intros Hlen;
    try reflexivity; contradiction Hlen; reflexivity.
Qed.

(** The first item of a sequence that has one. *)
Lemma getitem_first {X : Type} (v : X) (xs : list X) :
  getitem (v :: xs) 0 = Ok v.
Proof.
  assert (Hn : (0 <? Z.of_nat (length (v :: xs)))%Z = true).
  { apply Z.ltb_lt. simpl length. lia. }
  unfold getitem. cbv zeta. change (0 <? 0)%Z with false. cbv iota.
  rewrite Hn. reflexivity.
Qed.

(** ** The predator-prey right-hand side, in any arithmetic *)

Section DrfdtFacts.

Context {A : Type} `{PyNum A}.
Local Open Scope num_scope.

Lemma drfdt_pair (r f t : A) :
  drfdt [r; f] t =
  Ok [lit 0.08 * r - lit 0.0004 * r * f; - lit 0.09 * f + lit 0.0005 * r * f].
Proof. reflexivity. Qed.

Lemma drfdt_time (rf : list A) (t1 t2 : A) : drfdt rf t1 = drfdt rf t2.
Proof. reflexivity. Qed.

(** A state of any other length is refused at the unpacking. *)
Lemma drfdt_wrong_length (rf : list A) (t : A) :
  length rf <> 2%nat -> drfdt rf t = Raise ValueError.
Proof.
  intros Hlen. unfold drfdt. rewrite (unpack2_Raise rf Hlen). reflexivity.
Qed.

Lemma drfdt_dimension : dimension_preserving drfdt 2.
Proof.
  intros y t Hlen.
  destruct (unpack2_Ok y Hlen) as (r & f & -> & _).
  rewrite drfdt_pair. eexists. split; reflexivity.
Qed.

End DrfdtFacts.

(** C2: on a state (r, f) the predator-prey right-hand side returns the
    two-vector (0.08 r - 0.0004 r f, -0.09 f + 0.0005 r f), the products and
    sums being those of the arithmetic the state is given in (exact on
    reals, rounded on binary64), and the time argument has no influence on
    the result, on a pair or on any other input. *)
Theorem drfdt_value_and_time_independence
  (A : Type) (N : PyNum A) (r f t1 t2 : A) (rf : list A) :
  (drfdt [r; f] t1 =
   Ok [lit 0.08 * r - lit 0.0004 * r * f;
       - lit 0.09 * f + lit 0.0005 * r * f]%num) /\
  drfdt [r; f] t1 = drfdt [r; f] t2 /\
  drfdt rf t1 = drfdt rf t2.
Proof.
  split; [ apply drfdt_pair | split; apply drfdt_time ].
Qed.

(** ** The predator-prey right-hand side over the reals *)

Section DrfdtReal.

Local Open Scope R_scope.

(** The literals of the source denote the decimals they spell. *)
Lemma drfdt_real (r f t : R) :
  drfdt [r; f] t =
  Ok [0.08 * r - 0.0004 * r * f; - (0.09) * f + 0.0005 * r * f].
Proof. reflexivity. Qed.

(** Both components factor through the distance to the thresholds. *)
Lemma drdt_factored (r f : R) :
  0.08 * r - 0.0004 * r * f = 0.0004 * r * (200 - f).
Proof. lra. Qed.

Lemma dfdt_factored (r f : R) :
  - (0.09) * f + 0.0005 * r * f = 0.0005 * f * (r - 180).
Proof. lra. Qed.

End DrfdtReal.

Section DrfdtRealProperties.

Local Open Scope R_scope.

(** C9: in exact real arithmetic (180, 200) is an equilibrium of the
    predator-prey system: both components of the right-hand side vanish
    there at every time, because 0.08 * 180 and 0.0004 * 180 * 200 are both
    14.4, and 0.09 * 200 and 0.0005 * 180 * 200 are both 18. *)
Theorem drfdt_equilibrium_real (t : R) :
  drfdt [180; 200] t = Ok [0; 0] /\
  0.08 * 180 = 14.4 /\ 0.0004 * 180 * 200 = 14.4 /\
  0.09 * 200 = 18 /\ 0.0005 * 180 * 200 = 18.
Proof.
  split.
  - rewrite drfdt_real. f_equal. f_equal; [ lra | f_equal; lra ].
  - repeat split; lra.
Qed.

(** C4, as amended: evaluated in exact real arithmetic, on a state with
    r > 0 and f > 0 the first component of the right-hand side is strictly
    positive when f < 200 and the second is strictly positive when
    r > 180. *)
Theorem drfdt_sign_real (r f t : R) :
  0 < r -> 0 < f ->
  exists drdt dfdt,
    drfdt [r; f] t = Ok [drdt; dfdt] /\
    (f < 200 -> 0 < drdt) /\
    (180 < r -> 0 < dfdt).
Proof.
  intros Hr Hf.
  exists (0.08 * r - 0.0004 * r * f), (- (0.09) * f + 0.0005 * r * f).
  split; [ apply drfdt_real | split; intros Hb ].
  - rewrite drdt_factored.
    apply Rmult_lt_0_compat; [ apply Rmult_lt_0_compat | ]; lra.
  - rewrite dfdt_factored.
    apply Rmult_lt_0_compat; [ apply Rmult_lt_0_compat | ]; lra.
Qed.

Lemma drfdt_sign_real_witness :
  0 < 300 /\ 0 < 100 /\
  exists drdt dfdt,
    drfdt [300; 100] 0 = Ok [drdt; dfdt] /\
    (100 < 200 -> 0 < drdt) /\
    (180 < 300 -> 0 < dfdt).
Proof.
  split; [ lra | split; [ lra | apply (drfdt_sign_real 300 100 0); lra ] ].
Defined.

End DrfdtRealProperties.

(** ** The predator-prey right-hand side on binary64 *)

Section DrfdtBinary64.

Local Open Scope float_scope.

(** The literals of the source are the binary64 numbers Python reads. *)
Lemma binary64_literals :
  lit (A := float) 0.08 = Binary64Data.c_0_08 /\
  lit (A := float) 0.0004 = Binary64Data.c_0_0004 /\
  lit (A := float) 0.09 = Binary64Data.c_0_09 /\
  lit (A := float) 0.0005 = Binary64Data.c_0_0005 /\
  lit (A := float) 300 = 300 /\ lit (A := float) 100 = 100 /\
  lit (A := float) 0 = 0 /\ lit (A := float) 40 = 40.
Proof. vm_compute. repeat split; reflexivity. Qed.

(** At the initial state the rounded value of the first component is one
    unit in the last place below 12. *)
Example drfdt_binary64_initial :
  drfdt [300; 100] 0 = Ok [0x1.7ffffffffffffp+3; 6].
Proof. vm_compute. reflexivity. Qed.

(** At (180, 200), the equilibrium of the real system, the rounded first
    component is not zero: 0.08 * 180 and 0.0004 * 180 * 200 round to
    different neighbours of 14.4. *)
Example drfdt_binary64_equilibrium :
  drfdt [180; 200] 0 = Ok [-0x1p-49; 0].
Proof. vm_compute. reflexivity. Qed.

(** One unit in the last place below f = 200 the two products of the first
    component round to the same number and their difference is zero. *)
Lemma drfdt_binary64_below_200 :
  drfdt [300; Binary64Data.below_200] 0 = Ok [0; 0x1.7fffffffffffep+3].
Proof. vm_compute. reflexivity. Qed.

(** One unit in the last place above r = 180 the same happens to the
    second component. *)
Lemma drfdt_binary64_above_180 :
  drfdt [Binary64Data.above_180; 3] 0 = Ok [0x1.c5e353f7ced93p+3; 0].
Proof. vm_compute. reflexivity. Qed.

(** C4, as stated, fails on binary64: the state (300, 199.99999999999997)
    has r > 0 and 0 < f < 200, and the first component returned is 0, which
    is not strictly positive. *)
Lemma drfdt_sign_binary64_counterexample :
  ~ (forall r f t : float,
        (0 < r)%num -> (0 < f)%num ->
        exists drdt dfdt,
          drfdt [r; f] t = Ok [drdt; dfdt] /\
          ((f < 200)%num -> (0 < drdt)%num) /\
          ((180 < r)%num -> (0 < dfdt)%num)).
Proof.
  intros Hclaim.
  destruct (Hclaim 300 Binary64Data.below_200 0) as (drdt & dfdt & Hval & Hpos & _);
    try reflexivity.
  rewrite drfdt_binary64_below_200 in Hval.
  injection Hval as <- _.
  specialize (Hpos eq_refl).
  vm_compute in Hpos. discriminate Hpos.
Qed.

(** The second half fails as well, at (180.00000000000003, 3). *)
Lemma drfdt_sign_binary64_second :
  (180 < Binary64Data.above_180)%num /\ (0 < 3)%num /\
  exists drdt, drfdt [Binary64Data.above_180; 3] 0 = Ok [drdt; 0] /\
               ~ (0 < 0)%num.
Proof.
  split; [ reflexivity | split; [ reflexivity | ] ].
  eexists. split; [ apply drfdt_binary64_above_180 | ].
  intros Hlt. vm_compute in Hlt. discriminate Hlt.
Qed.

End DrfdtBinary64.

(** ** The pendulum right-hand side *)

Section Pendulum.

Local Open Scope R_scope.

Lemma dthetavdt_pair (theta v t : R) :
  dthetavdt [theta; v] t = Ok [v; - (10 * sin theta)].
Proof. reflexivity. Qed.

Lemma dthetavdt_dimension : dimension_preserving dthetavdt 2.
Proof.
  intros y t Hlen.
  destruct (unpack2_Ok y Hlen) as (theta & v & -> & _).
  rewrite dthetavdt_pair. eexists. split; reflexivity.
Qed.

Lemma isclose_refl (a : R) : isclose a a.
Proof.
  unfold isclose, atol, rtol.
  replace (a - a) with 0 by ring. rewrite Rabs_R0.
  pose proof (Rabs_pos a). lra.
Qed.

(** What [isclose] asks of a value near a negative target. *)
Lemma isclose_neg (a b : R) :
  b < 0 ->
  b - (atol - rtol * b) <= a <= b + (atol - rtol * b) ->
  isclose a b.
Proof.
  intros Hb Hab. unfold isclose.
  rewrite (Rabs_left b Hb).
  apply Rabs_le. lra.
Qed.

(** sin(pi/12) in closed form, from pi/12 = pi/4 - pi/6. *)
Lemma sin_PI12 : sin (PI / 12) = sqrt 2 * (sqrt 3 - 1) / 4.
Proof.
  replace (PI / 12) with (PI / 4 - PI / 6) by field.
  rewrite sin_minus, sin_PI4, cos_PI4, sin_PI6, cos_PI6.
  assert (H2 : sqrt 2 * sqrt 2 = 2) by (apply sqrt_sqrt; lra).
  assert (Hp : 0 < sqrt 2) by (apply sqrt_lt_R0; lra).
  assert (Hsq : sqrt 2 ^ 2 = 2) by (simpl; lra).
  field_simplify_eq; [ rewrite Hsq; ring | lra ].
Qed.

Lemma sqrt2_bounds : 1.414213 < sqrt 2 < 1.414214.
Proof.
  assert (H2 : sqrt 2 * sqrt 2 = 2) by (apply sqrt_sqrt; lra).
  assert (Hp : 0 < sqrt 2) by (apply sqrt_lt_R0; lra).
  split; nra.
Qed.

Lemma sqrt3_bounds : 1.732050 < sqrt 3 < 1.732051.
Proof.
  assert (H3 : sqrt 3 * sqrt 3 = 3) by (apply sqrt_sqrt; lra).
  assert (Hp : 0 < sqrt 3) by (apply sqrt_lt_R0; lra).
  split; nra.
Qed.

Lemma sin_PI12_bounds : 0.258818 < sin (PI / 12) < 0.258820.
Proof.
  rewrite sin_PI12.
  pose proof sqrt2_bounds as H2. pose proof sqrt3_bounds as H3.
  split; nra.
Qed.

(** C1: on a state (theta, v), at every time, the pendulum right-hand side
    returns a two-vector whose first component is v itself and whose second
    component is within the tolerance of [allclose] of -10 sin(theta). *)
Theorem dthetavdt_components (theta v t : R) :
  exists d,
    dthetavdt [theta; v] t = Ok [v; d] /\
    isclose d (-10 * sin theta).
Proof.
  exists (- (10 * sin theta)). split.
  - apply dthetavdt_pair.
  - replace (-10 * sin theta) with (- (10 * sin theta)) by ring.
    apply isclose_refl.
Qed.

(** C7: at every time the pendulum right-hand side at (pi/12, 0) is
    [allclose] to (0, -2.5881904510252074); its second component is
    -10 sin(pi/12). *)
Theorem dthetavdt_at_PI12 (t : R) :
  exists d,
    dthetavdt [PI / 12; 0] t = Ok d /\
    d = [0; - (10 * sin (PI / 12))] /\
    allclose d [0; -2.5881904510252074].
Proof.
  eexists. split; [ apply dthetavdt_pair | split; [ reflexivity | ] ].
  constructor; [ apply isclose_refl | constructor; [ | constructor ] ].
  pose proof sin_PI12_bounds as Hs.
  apply isclose_neg; unfold atol, rtol; lra.
Qed.

(** The grading cell of the notebook passes on this right-hand side. *)
Lemma acceptance_cell_passes : acceptance_cell.
Proof.
  unfold acceptance_cell, passes. repeat split.
  - eexists. split; [ apply dthetavdt_pair | ].
    rewrite sin_PI2.
    constructor; [ apply isclose_refl | constructor; [ | constructor ] ].
    apply isclose_neg; unfold atol, rtol; lra.
  - eexists. split; [ apply dthetavdt_pair | ].
    constructor; [ apply isclose_refl | constructor; [ | constructor ] ].
    pose proof sin_PI12_bounds as Hs.
    apply isclose_neg; unfold atol, rtol; lra.
  - eexists. split; [ apply dthetavdt_pair | ].
    rewrite sin_0.
    constructor; [ apply isclose_refl | constructor; [ | constructor ] ].
    replace (- (10 * 0)) with 0 by ring. apply isclose_refl.
Qed.

End Pendulum.

(** C3: on a state of dimension two, at every time, each right-hand side
    returns a vector, and the vector has dimension two: the dimension of
    the state it was given and of the initial states handed to the solver,
    [300, 100] for the predator-prey system and (pi/12, 0) or (pi/2, 0) for
    the pendulum. *)
Theorem derivative_dimension
  (A : Type) (N : PyNum A) (rf : list A) (t : A) (thetav : list R) (s : R) :
  length rf = 2%nat -> length thetav = 2%nat ->
  (exists d, drfdt rf t = Ok d /\
             length d = length rf /\
             length d = length [lit 300; lit 100 : A]) /\
  (exists d, dthetavdt thetav s = Ok d /\
             length d = length thetav /\
             length d = length [PI / 12; 0]%R /\
             length d = length [PI / 2; 0]%R).
Proof.
  intros Hrf Hthetav. split.
  - destruct (drfdt_dimension rf t Hrf) as (d & Hd & Hlen).
    exists d. rewrite Hrf, Hlen. repeat split; assumption || reflexivity.
  - destruct (dthetavdt_dimension thetav s Hthetav) as (d & Hd & Hlen).
    exists d. rewrite Hthetav, Hlen. repeat split; assumption || reflexivity.
Qed.

Lemma derivative_dimension_witness :
  (exists d, drfdt [300; 100]%R 0%R = Ok d /\
             length d = length [300; 100]%R /\
             length d = length [lit 300; lit 100 : R]) /\
  (exists d, dthetavdt [PI / 12; 0]%R 0%R = Ok d /\
             length d = length [PI / 12; 0]%R /\
             length d = length [PI / 12; 0]%R /\
             length d = length [PI / 2; 0]%R).
Proof.
  apply (derivative_dimension R PyNum_R [300; 100]%R 0%R [PI / 12; 0]%R 0%R);
    reflexivity.
Defined.

(** ** The shape of the time grid *)

Lemma linspace_length {A : Type} `{PyNum A} (start stop : A) (num : nat) :
  length (linspace start stop num) = num.
Proof.
  destruct num as [|[|n]]; try reflexivity.
  unfold linspace. cbv zeta.
  destruct (num_eqb _ _);
    rewrite length_app, length_map, length_seq; simpl; lia.
Qed.

Lemma linspace_cons {A : Type} `{PyNum A} (start stop : A) (n : nat) :
  exists t0 ts, linspace start stop (S n) = t0 :: ts /\ length ts = n.
Proof.
  pose proof (linspace_length start stop (S n)) as Hlen.
  destruct (linspace start stop (S n)) as [|t0 ts]; [ discriminate Hlen | ].
  exists t0, ts. split; [ reflexivity | ].
  simpl in Hlen. congruence.
Qed.

(** ** What the solver contract gives *)

Section SolverFacts.

Context {A : Type} `{PyNum A}.
Local Open Scope num_scope.

Variable odeint : solver (A := A).
Hypothesis odeint_contract : ivp_contract odeint.

(** The first row of a trajectory is the initial state, and there is one
    row per time point. *)
Lemma contract_first_row (f : rhs) (y0 : list A) (t0 : A) (ts : list A) :
  dimension_preserving f (length y0) ->
  nondecreasing (t0 :: ts) ->
  exists rows,
    odeint f y0 (t0 :: ts) = Ok (y0 :: rows) /\ length rows = length ts.
Proof.
  intros Hf Hts.
  destruct (odeint_contract f y0 t0 ts Hf Hts) as (y & Hy0 & Hrun).
  exists (map y ts). split.
  - rewrite Hrun. simpl. rewrite Hy0. reflexivity.
  - apply length_map.
Qed.

(** Over a sequence of two identical time points both rows are the initial
    state. *)
Lemma contract_zero_length (f : rhs) (y0 : list A) (t0 : A) :
  dimension_preserving f (length y0) ->
  t0 <= t0 ->
  odeint f y0 [t0; t0] = Ok [y0; y0].
Proof.
  intros Hf Hle.
  assert (Hts : nondecreasing [t0; t0]).
  { repeat constructor. exact Hle. }
  destruct (odeint_contract f y0 t0 [t0] Hf Hts) as (y & Hy0 & Hrun).
  rewrite Hrun. simpl. rewrite Hy0. reflexivity.
Qed.

Lemma rabbits_at_start :
  lit 0 <= lit 0 -> rabbits odeint (lit 0) = Ok (lit 300).
Proof.
  intros Hle. unfold rabbits.
  rewrite (contract_zero_length drfdt [lit 300; lit 100] (lit 0));
    [ reflexivity | apply drfdt_dimension | exact Hle ].
Qed.

Lemma population_curve_first_row :
  nondecreasing (linspace (lit 0) (lit 100) 100) ->
  exists rows,
    population_curve odeint = Ok ([lit 300; lit 100] :: rows) /\
    length rows = 99%nat.
Proof.
  unfold population_curve. intros Hts.
  destruct (linspace_cons (lit 0) (lit 100) 99) as (t0 & ts & Hgrid & Hlen99).
  cbv zeta. rewrite Hgrid in *.
  destruct (contract_first_row drfdt [lit 300; lit 100] _ _
              drfdt_dimension Hts) as (rows & Hrun & Hlen).
  exists rows. split; [ exact Hrun | ].
  rewrite Hlen. exact Hlen99.
Qed.

End SolverFacts.

(** ** Euler's method meets the contract *)

Section EulerFacts.

Local Open Scope R_scope.

Lemma axpy_length (h : R) (d y : list R) :
  length d = length y -> length (axpy h d y) = length y.
Proof.
  revert d. induction y as [|yi y IH]; intros [|di d] Hlen;
    simpl in *; try discriminate; try reflexivity.
  f_equal. apply IH. congruence.
Qed.

(** A step of length zero leaves the state as it is. *)
Lemma axpy_zero (d y : list R) :
  length d = length y -> axpy 0 d y = y.
Proof.
  revert d. induction y as [|yi y IH]; intros [|di d] Hlen;
    simpl in *; try discriminate; try reflexivity.
  f_equal; [ ring | apply IH; congruence ].
Qed.

Lemma sorted_head_least (t : R) (ts : list R) :
  Sorted Rle (t :: ts) -> forall s, In s ts -> t <= s.
Proof.
  intros Hs.
  apply Sorted_StronglySorted in Hs; [ | exact Rle_trans ].
  inversion Hs as [|? ? _ Hall]; subst.
  intros s Hin. rewrite Forall_forall in Hall. apply Hall, Hin.
Qed.

Lemma euler_from_curve (f : rhs) (n : nat) :
  dimension_preserving f n ->
  forall ts y t,
    length y = n -> Sorted Rle (t :: ts) ->
    exists c : R -> list R,
      c t = y /\ euler_from f y t ts = Ok (map c ts).
Proof.
  intros Hf. induction ts as [|t' ts' IH]; intros y t Hlen Hsorted.
  - exists (fun _ => y). split; reflexivity.
  - inversion Hsorted as [|? ? Htail Hhd]; subst.
    inversion Hhd as [|? ? Hle]; subst.
    destruct (Hf y t eq_refl) as (d & Hd & Hdlen).
    set (y' := axpy (t' - t) d y).
    assert (Hlen' : length y' = length y) by (apply axpy_length, Hdlen).
    destruct (IH y' t' Hlen' Htail) as (c' & Hc' & Hrun).
    exists (fun s => if Req_dec_T s t then y else c' s). split.
    + destruct (Req_dec_T t t) as [_|Hne]; [ reflexivity | contradiction Hne; reflexivity ].
    + simpl. rewrite Hd. simpl. fold y'. rewrite Hrun. simpl.
      assert (Hagree : forall s, In s (t' :: ts') ->
                (if Req_dec_T s t then y else c' s) = c' s).
      { intros s Hin. destruct (Req_dec_T s t) as [->|_]; [ | reflexivity ].
        assert (Hge : t' <= t).
        { destruct Hin as [->|Hin]; [ lra | ].
          apply (sorted_head_least t' ts' Htail), Hin. }
        assert (Heq : t' = t) by lra. subst t'.
        rewrite Hc'. unfold y'.
        replace (t - t) with 0 by ring.
        symmetry. apply axpy_zero, Hdlen. }
      f_equal. f_equal.
      * rewrite (Hagree t' (or_introl eq_refl)). symmetry. exact Hc'.
      * apply map_ext_in. intros s Hin. symmetry.
        apply Hagree. right. exact Hin.
Qed.

Lemma euler_contract : ivp_contract (euler (A := R)).
Proof.
  intros f y0 t0 ts Hf Hts.
  destruct (euler_from_curve f (length y0) Hf ts y0 t0 eq_refl Hts)
    as (c & Hc & Hrun).
  exists c. split; [ exact Hc | ].
  simpl. rewrite Hrun. simpl. rewrite Hc. reflexivity.
Qed.

End EulerFacts.

(** ** The time grid of the plot *)

Section Grid.

Lemma num_of_nat_real (i : nat) : num_of_nat (A := R) i = INR i.
Proof.
  unfold num_of_nat. simpl. unfold Q2R. simpl.
  rewrite INR_IZR_INZ. field.
Qed.

(** Over the reals both ways of computing a point give
    [i * (stop - start) / div + start]. *)
Lemma linspace_real_points (start stop : R) (n : nat) :
  linspace start stop (S (S n)) =
  map (fun i => INR i * ((stop - start) / INR (S n)) + start)%R
      (seq 0 (S n)) ++ [stop].
Proof.
  assert (HD : (INR (S n) <> 0)%R) by (apply not_0_INR; discriminate).
  unfold linspace. cbv zeta.
  destruct (num_eqb _ _); f_equal; apply map_ext; intros i;
    change (@num_add R PyNum_R) with Rplus;
    change (@num_sub R PyNum_R) with Rminus;
    change (@num_mul R PyNum_R) with Rmult;
    change (@num_div R PyNum_R) with Rdiv;
    rewrite !num_of_nat_real; field; exact HD.
Qed.

Lemma linspace_real_sorted (start stop : R) (num : nat) :
  (start <= stop)%R -> nondecreasing (linspace start stop num).
Proof.
  intros Hle. destruct num as [|[|n]]; try (repeat constructor).
  unfold nondecreasing. rewrite linspace_real_points.
  set (D := INR (S n)).
  set (step := ((stop - start) / D)%R).
  assert (HD : (1 <= D)%R).
  { unfold D. replace 1%R with (INR 1) by reflexivity. apply le_INR. lia. }
  assert (Hstep : (step * D = stop - start)%R).
  { unfold step. field. lra. }
  assert (Hstep0 : (0 <= step)%R) by nra.
  assert (Hmono : forall m a : nat, (a + m <= S n)%nat ->
            Sorted Rle (map (fun i => INR i * step + start)%R (seq a m)
                        ++ [stop])).
  { induction m as [|m IH]; intros a Ha.
    - repeat constructor.
    - cbn [seq map app]. constructor; [ apply IH; lia | ].
      assert (Ha' : (INR a <= D - 1)%R).
      { unfold D. rewrite S_INR.
        assert (INR a <= INR n)%R by (apply le_INR; lia). lra. }
      destruct m as [|m]; cbn [seq map app]; constructor;
        rewrite ?S_INR; nra. }
  apply Hmono. lia.
Qed.

Lemma linspace_real_nondecreasing :
  nondecreasing (linspace (A := R) (lit 0) (lit 100) 100).
Proof.
  apply linspace_real_sorted. simpl. unfold Q2R. simpl. lra.
Qed.

(** On binary64 the grid is checked point by point. *)
Lemma nondecreasingb_sound (ts : list float) :
  Binary64Data.nondecreasingb ts = true -> Sorted Binary64.le ts.
Proof.
  induction ts as [|t ts IH]; intros Hb; [ constructor | ].
  destruct ts as [|t' ts]; [ repeat constructor | ].
  simpl in Hb. apply andb_true_iff in Hb as [Hle Hrest].
  constructor; [ apply IH, Hrest | constructor; exact Hle ].
Qed.

Lemma linspace_binary64_nondecreasing :
  nondecreasing (linspace (A := float) (lit 0) (lit 100) 100).
Proof.
  apply nondecreasingb_sound. vm_compute. reflexivity.
Qed.

(** The first and last grid points on binary64 are 0 and 100; the second
    is the rounded 100/99. *)
Example linspace_binary64_ends :
  getitem (linspace (A := float) (lit 0) (lit 100) 100) 0 = Ok 0%float /\
  getitem (linspace (A := float) (lit 0) (lit 100) 100) 1
    = Ok 0x1.0295fad40a57fp+0%float /\
  getitem (linspace (A := float) (lit 0) (lit 100) 100) (-1) = Ok 100%float.
Proof. vm_compute. repeat split; reflexivity. Qed.

(** The paths of [linspace] that only binary64 can tell apart: a step
    that underflows to zero (the points are then [i / div * delta]), and a
    single point, computed as [0 * delta + start]. *)
Example linspace_binary64_edge_paths :
  (linspace 0 0x1p-1074 4 = [0; 0; 0x1p-1074; 0x1p-1074] /\
   linspace (-0) (-0) 1 = [0] /\
   linspace 0 infinity 1 = [nan])%float.
Proof. vm_compute. repeat split; reflexivity. Qed.

End Grid.

(** ** Integration over no time, and the first row *)

Section SolverProperties.

Local Open Scope R_scope.

Lemma lit_real_0 : lit (A := R) 0 = 0.
Proof. simpl. unfold Q2R. simpl. field. Qed.

Lemma lit_real_100 : lit (A := R) 100 = 100.
Proof. simpl. unfold Q2R. simpl. field. Qed.

Lemma lit_real_300 : lit (A := R) 300 = 300.
Proof. simpl. unfold Q2R. simpl. field. Qed.

(** C5: for a solver that meets the contract, every right-hand side of the
    right dimension and every initial state, integrating over a sequence of
    two identical time points returns the initial state unchanged, in both
    rows; in particular [rabbits(0)], which solves from (300, 100) over
    [0, 0] and reads the first component of the last row, is 300. *)
Theorem zero_length_integration (odeint : solver (A := R)) :
  ivp_contract odeint ->
  (forall (f : rhs) (y0 : list R) (t0 : R),
      dimension_preserving f (length y0) ->
      odeint f y0 [t0; t0] = Ok [y0; y0] /\
      getitem [y0; y0] (-1) = Ok y0) /\
  rabbits odeint 0 = Ok 300.
Proof.
  intros Hc. split.
  - intros f y0 t0 Hf. split; [ | reflexivity ].
    apply contract_zero_length; [ exact Hc | exact Hf | apply Rle_refl ].
  - rewrite <- lit_real_0, <- lit_real_300.
    apply rabbits_at_start; [ exact Hc | apply Rle_refl ].
Qed.

Lemma zero_length_integration_witness :
  (forall (f : rhs) (y0 : list R) (t0 : R),
      dimension_preserving f (length y0) ->
      euler f y0 [t0; t0] = Ok [y0; y0] /\
      getitem [y0; y0] (-1) = Ok y0) /\
  rabbits euler 0 = Ok 300.
Proof.
  apply (zero_length_integration euler). exact euler_contract.
Defined.

(** C6: solving the predator-prey system from (300, 100) over the grid
    [linspace(0, 100, 100)] with a solver that meets the contract produces
    a trajectory of 100 rows whose first row is (300, 100) exactly. *)
Theorem population_curve_starts_at_initial_state (odeint : solver (A := R)) :
  ivp_contract odeint ->
  exists traj,
    population_curve odeint = Ok traj /\
    length traj = 100%nat /\
    getitem traj 0 = Ok [300; 100].
Proof.
  intros Hc.
  destruct (population_curve_first_row odeint Hc linspace_real_nondecreasing)
    as (rows & Hrun & Hlen).
  exists ([lit 300; lit 100] :: rows). split; [ exact Hrun | split ].
  - simpl. rewrite Hlen. reflexivity.
  - rewrite getitem_first, lit_real_300, lit_real_100. reflexivity.
Qed.

Lemma population_curve_starts_at_initial_state_witness :
  exists traj,
    population_curve euler = Ok traj /\
    length traj = 100%nat /\
    getitem traj 0 = Ok [300; 100].
Proof.
  apply (population_curve_starts_at_initial_state euler). exact euler_contract.
Defined.

End SolverProperties.

(** The same on binary64, where the only extra care is that a time point
    compares with itself, which a NaN does not. *)
Section SolverBinary64.

Variable odeint : solver (A := float).
Hypothesis odeint_contract : ivp_contract odeint.

Lemma rabbits_at_start_binary64 : rabbits odeint 0%float = Ok 300%float.
Proof.
  change 0%float with (lit (A := float) 0).
  change 300%float with (lit (A := float) 300).
  apply rabbits_at_start; [ exact odeint_contract | reflexivity ].
Qed.

Lemma population_curve_binary64 :
  exists rows,
    population_curve odeint = Ok ([300; 100]%float :: rows) /\
    length rows = 99%nat.
Proof.
  change 300%float with (lit (A := float) 300).
  change 100%float with (lit (A := float) 100).
  apply population_curve_first_row;
    [ exact odeint_contract | exact linspace_binary64_nondecreasing ].
Qed.

End SolverBinary64.

(** ** Calls and cells in the kernel *)

Section KernelFacts.

Context {A : Type} `{PyNum A}.
Local Open Scope num_scope.
Local Open Scope st_scope.

Lemma extend_extend (k : kernel A) (os os' : list (obj A)) :
  extend (extend k os) os' = extend k (os ++ os').
Proof. unfold extend. simpl. rewrite <- app_assoc. reflexivity. Qed.

End KernelFacts.

Section CellFacts.

Context {A : Type} `{PyNum A}.
Local Open Scope num_scope.
Local Open Scope st_scope.

Variable odeint : solver (A := A).

Lemma cell_minimize_run (minimize : minimizer A) (k : kernel A)
      (r : OptimizeResult A) :
  minimize (rabbits odeint) (lit 40) = Ok r ->
  cell_minimize odeint minimize k =
  (Ok tt, {| objects := objects k ++ [Result r];
             globals := ("result"%string, length (objects k)) :: globals k;
             stdout := stdout k ++ [[Repr (Result r)]] |}).
Proof.
  intros Hmin.
  unfold cell_minimize, bindS, lift, alloc, setglobal, getglobal, load, print.
  rewrite Hmin. simpl.
  rewrite nth_error_app2, Nat.sub_diag; [ reflexivity | lia ].
Qed.

Lemma cell_report_run (k : kernel A) (a : nat) (r : OptimizeResult A) :
  lookup "result" (globals k) = Some a ->
  nth_error (objects k) a = Some (Result r) ->
  cell_report k =
  (report_outcome r,
   {| objects := objects k; globals := globals k;
      stdout := stdout k ++ report_lines r |}).
Proof.
  intros Hname Hobj.
  unfold cell_report, bindS, lift, getglobal, load, print.
  rewrite Hname, Hobj. simpl.
  unfold report_outcome, report_lines.
  destruct (x r) as [|x0 xs].
  - simpl. rewrite app_nil_r. destruct k; reflexivity.
  - rewrite getitem_first. reflexivity.
Qed.

(** The two cells one after the other. *)
Lemma minimize_then_report_run (minimize : minimizer A) (k : kernel A)
      (r : OptimizeResult A) :
  minimize (rabbits odeint) (lit 40) = Ok r ->
  (cell_minimize odeint minimize ;; cell_report) k =
  (report_outcome r,
   {| objects := objects k ++ [Result r];
      globals := ("result"%string, length (objects k)) :: globals k;
      stdout := stdout k ++ [Repr (Result r)] :: report_lines r |}).
Proof.
  intros Hmin. unfold bindS at 1.
  rewrite (cell_minimize_run minimize k r Hmin).
  rewrite (cell_report_run _ (length (objects k)) r).
  - simpl. rewrite <- app_assoc. reflexivity.
  - reflexivity.
  - simpl. rewrite nth_error_app2, Nat.sub_diag; [ reflexivity | lia ].
Qed.

End CellFacts.

(** C8: whatever record the minimizer returns, converged or not, the code
    after the call behaves the same.  Take two minimizers whose records
    agree on [x] and may differ in everything else, the convergence flag
    included, and run the two cells from the same kernel: the outcome is
    the same and so are the lines printed by the last cell, which are made
    from [result.x[0]] alone; the only output in which the records show is
    the line [print(result)] writes. *)
Theorem convergence_flag_only_in_diagnostics
  (A : Type) (N : PyNum A) (odeint : solver (A := A))
  (minimize1 minimize2 : minimizer A) (k : kernel A)
  (r1 r2 : OptimizeResult A) :
  minimize1 (rabbits odeint) (lit 40) = Ok r1 ->
  minimize2 (rabbits odeint) (lit 40) = Ok r2 ->
  x r1 = x r2 ->
  exists outcome report k1 k2,
    (cell_minimize odeint minimize1 ;; cell_report)%st k = (outcome, k1) /\
    (cell_minimize odeint minimize2 ;; cell_report)%st k = (outcome, k2) /\
    stdout k1 = stdout k ++ [Repr (Result r1)] :: report /\
    stdout k2 = stdout k ++ [Repr (Result r2)] :: report /\
    report = match x r1 with
             | x0 :: _ => [[Text "rabbits rebounded after"; Num x0;
                            Text "years"]]
             | [] => []
             end.
Proof.
  intros H1 H2 Hx.
  exists (report_outcome r1), (report_lines r1).
  eexists. eexists. split; [ | split; [ | split; [ | split ] ] ].
  - apply minimize_then_report_run, H1.
  - rewrite (minimize_then_report_run odeint minimize2 k r2 H2).
    unfold report_outcome, report_lines. rewrite <- Hx. reflexivity.
  - reflexivity.
  - reflexivity.
  - reflexivity.
Qed.

Lemma convergence_flag_only_in_diagnostics_witness :
  exists r1 r2 : OptimizeResult R,
    minimize_converged (rabbits euler) (lit 40) = Ok r1 /\
    minimize_stalled (rabbits euler) (lit 40) = Ok r2 /\
    success r1 = true /\ success r2 = false /\
    exists outcome report k1 k2,
      (cell_minimize euler minimize_converged ;; cell_report)%st fresh_kernel
        = (outcome, k1) /\
      (cell_minimize euler minimize_stalled ;; cell_report)%st fresh_kernel
        = (outcome, k2) /\
      stdout k1 = stdout fresh_kernel ++ [Repr (Result r1)] :: report /\
      stdout k2 = stdout fresh_kernel ++ [Repr (Result r2)] :: report /\
      report = match x r1 with
               | x0 :: _ => [[Text "rabbits rebounded after"; Num x0;
                              Text "years"]]
               | [] => []
               end.
Proof.
  eexists. eexists.
  split; [ reflexivity | split; [ reflexivity | ] ].
  split; [ reflexivity | split; [ reflexivity | ] ].
  apply (convergence_flag_only_in_diagnostics
           R PyNum_R euler minimize_converged minimize_stalled fresh_kernel);
    reflexivity.
Defined.

(** ** The model run on binary64 *)

(** The definitions compute.  With Euler's method standing in for the
    solver (its numbers are Euler's, not SciPy's) the calls and cells run
    on binary64 as follows. *)

Section Binary64Runs.

Local Open Scope float_scope.

Example rabbits_euler_binary64 :
  rabbits euler 0 = Ok 300 /\ rabbits euler 40 = Ok 780.
Proof. vm_compute. split; reflexivity. Qed.

Example cells_binary64 :
  stdout (snd ((cell_minimize euler minimize_stalled ;; cell_report)%st
                 fresh_kernel))
  = [[Repr (Result {| x := [40]; success := false; status := 2%Z;
                      message := "Desired error not necessarily achieved due to precision loss.";
                      fun_ := 780 |})];
     [Text "rabbits rebounded after"; Num 40; Text "years"]].
Proof. vm_compute. reflexivity. Qed.

(** A name no cell has bound: the report cell on a fresh kernel. *)
Example cell_report_unbound :
  cell_report (fresh_kernel (A := float)) = (Raise NameError, fresh_kernel).
Proof. reflexivity. Qed.

End Binary64Runs.

(** * Further properties *)

(** ** Equilibria and nullclines over the reals *)

Section DrfdtPhasePlane.

Local Open Scope R_scope.

(** X2: In exact real arithmetic the system has exactly two equilibria: no
    animals at all, and 180 rabbits with 200 foxes. *)
Theorem drfdt_equilibria_real (r f t : R) :
  drfdt [r; f] t = Ok [0; 0] <->
  (r = 0 /\ f = 0) \/ (r = 180 /\ f = 200).
Proof.
  rewrite drfdt_real, drdt_factored, dfdt_factored. split.
  - intros Heq. injection Heq as Hr Hf.
    assert (Hr' : r * (200 - f) = 0) by lra.
    assert (Hf' : f * (r - 180) = 0) by lra.
    apply Rmult_integral in Hr'. apply Rmult_integral in Hf'.
    destruct Hr' as [Hr0|Hf200]; destruct Hf' as [Hf0|Hr180].
    + left. split; assumption.
    + exfalso. lra.
    + exfalso. lra.
    + right. split; lra.
  - intros [[-> ->]|[-> ->]]; f_equal; f_equal; try lra; f_equal; lra.
Qed.

(** X3: With rabbits present, the sign of their rate of change is the sign of
    200 - f; with foxes present, the sign of theirs is the sign of
    r - 180. *)
Theorem drfdt_nullclines_real (r f t : R) :
  exists drdt dfdt,
    drfdt [r; f] t = Ok [drdt; dfdt] /\
    (0 < r -> (0 < drdt <-> f < 200) /\ (drdt = 0 <-> f = 200) /\
              (drdt < 0 <-> 200 < f)) /\
    (0 < f -> (0 < dfdt <-> 180 < r) /\ (dfdt = 0 <-> r = 180) /\
              (dfdt < 0 <-> r < 180)).
Proof.
  exists (0.08 * r - 0.0004 * r * f), (- (0.09) * f + 0.0005 * r * f).
  split; [ apply drfdt_real | ].
  rewrite drdt_factored, dfdt_factored.
  split; intros Hpos; repeat split; intros Hyp; nra.
Qed.


Lemma derivable_pt_lim_affine_ln (u : R -> R) (a b t du : R) :
  0 < u t ->
  derivable_pt_lim u t du ->
  derivable_pt_lim (fun s => a * u s - b * ln (u s)) t
                   (a * du - b * (/ u t * du)).
Proof.
  intros Hpos Hu.
  apply (derivable_pt_lim_minus (fun s => a * u s) (fun s => b * ln (u s))).
  - apply (derivable_pt_lim_scal u a t du Hu).
  - apply (derivable_pt_lim_scal (fun s => ln (u s)) b t (/ u t * du)).
    apply (derivable_pt_lim_comp u ln t du (/ u t) Hu).
    apply derivable_pt_lim_ln. exact Hpos.
Qed.

(** Where a curve of positive populations moves as [drfdt] says, the
    invariant has derivative zero along it. *)
Lemma lv_invariant_stationary (r f : R -> R) (t dr df : R) :
  0 < r t -> 0 < f t ->
  derivable_pt_lim r t dr ->
  derivable_pt_lim f t df ->
  drfdt [r t; f t] t = Ok [dr; df] ->
  derivable_pt_lim (fun s => lv_invariant (r s) (f s)) t 0.
Proof.
  intros Hr Hf Hdr Hdf Hode.
  rewrite drfdt_real in Hode. injection Hode as Hdr' Hdf'.
  pose proof (derivable_pt_lim_affine_ln r 0.0005 0.09 t dr Hr Hdr) as H1.
  pose proof (derivable_pt_lim_affine_ln f 0.0004 0.08 t df Hf Hdf) as H2.
  pose proof (derivable_pt_lim_plus _ _ _ _ _ H1 H2) as H12.
  replace 0 with (0.0005 * dr - 0.09 * (/ r t * dr) +
                  (0.0004 * df - 0.08 * (/ f t * df))).
  - eapply derivable_pt_lim_ext; [ | exact H12 ].
    intros s. unfold plus_fct, lv_invariant. ring.
  - subst dr df. field. split; lra.
Qed.



(** Along every solution of the system on which both populations stay
    positive, the invariant keeps the value it starts with: the state moves
    on a level curve of [lv_invariant]. *)
Theorem lv_invariant_constant (r f r' f' : R -> R) :
  (forall t, 0 < r t) -> (forall t, 0 < f t) ->
  (forall t, derivable_pt_lim r t (r' t)) ->
  (forall t, derivable_pt_lim f t (f' t)) ->
  (forall t, drfdt [r t; f t] t = Ok [r' t; f' t]) ->
  forall t1 t2,
    lv_invariant (r t1) (f t1) = lv_invariant (r t2) (f t2).
Proof.
  intros Hr Hf Hdr Hdf Hode t1 t2.
  set (V := fun s => lv_invariant (r s) (f s)).
  assert (HV : forall t, derivable_pt_lim V t 0).
  { intros t. apply (lv_invariant_stationary r f t (r' t) (f' t)); auto. }
  set (pr := fun t => exist (fun l => derivable_pt_abs V t l) 0 (HV t)
               : derivable_pt V t).
  assert (Hnull : forall t, derive_pt V t (pr t) = 0) by reflexivity.
  exact (null_derivative_1 V pr Hnull t1 t2).
Qed.

End DrfdtPhasePlane.

(** ** Not-a-number on binary64 *)

Section DrfdtNaN.

Local Open Scope float_scope.

Lemma mul_nan_l (y : float) : nan * y = nan.
Proof.
  apply FloatAxioms.Prim2SF_inj. rewrite FloatAxioms.mul_spec.
  reflexivity.
Qed.

Lemma mul_nan_r (x : float) : x * nan = nan.
Proof.
  apply FloatAxioms.Prim2SF_inj. rewrite FloatAxioms.mul_spec.
  change (FloatOps.Prim2SF nan) with SpecFloat.S754_nan.
  destruct (FloatOps.Prim2SF x); reflexivity.
Qed.

Lemma add_nan_l (y : float) : nan + y = nan.
Proof.
  apply FloatAxioms.Prim2SF_inj. rewrite FloatAxioms.add_spec.
  reflexivity.
Qed.

Lemma add_nan_r (x : float) : x + nan = nan.
Proof.
  apply FloatAxioms.Prim2SF_inj. rewrite FloatAxioms.add_spec.
  change (FloatOps.Prim2SF nan) with SpecFloat.S754_nan.
  destruct (FloatOps.Prim2SF x); reflexivity.
Qed.

Lemma sub_nan_l (y : float) : nan - y = nan.
Proof.
  apply FloatAxioms.Prim2SF_inj. rewrite FloatAxioms.sub_spec.
  reflexivity.
Qed.

Lemma sub_nan_r (x : float) : x - nan = nan.
Proof.
  apply FloatAxioms.Prim2SF_inj. rewrite FloatAxioms.sub_spec.
  change (FloatOps.Prim2SF nan) with SpecFloat.S754_nan.
  destruct (FloatOps.Prim2SF x); reflexivity.
Qed.

(** X5: On binary64 a not-a-number in either population is not lost and does
    not raise: [drfdt] returns, and both rates of change are not-a-number,
    whatever the other population and the time are. *)
Theorem drfdt_nan_binary64 (r f t : float) :
  r = nan \/ f = nan -> drfdt [r; f] t = Ok [nan; nan].
Proof.
  intros [-> | ->]; rewrite drfdt_pair; cbn [num_add num_sub num_mul PyNum_binary64].
  - rewrite !mul_nan_r, !mul_nan_l, sub_nan_r, add_nan_r. reflexivity.
  - rewrite !mul_nan_r, sub_nan_r, add_nan_l. reflexivity.
Qed.

Lemma drfdt_nan_binary64_witness :
  (nan = nan \/ 100 = nan) /\ drfdt [nan; 100] 0 = Ok [nan; nan].
Proof.
  split; [ left; reflexivity | ].
  apply (drfdt_nan_binary64 nan 100 0). left. reflexivity.
Defined.

End DrfdtNaN.

(** ** What [rabbits] reads of the trajectory *)

Lemma getitem_last {X : Type} (xs : list X) (v : X) :
  getitem (xs ++ [v]) (-1) = Ok v.
Proof.
  unfold getitem. cbv zeta. change (-1 <? 0)%Z with true. cbv iota.
  rewrite length_app. simpl length.
  replace (Z.of_nat (length xs + 1) + -1)%Z with (Z.of_nat (length xs)) by lia.
  assert (Hin : ((0 <=? Z.of_nat (length xs)) &&
                 (Z.of_nat (length xs) <? Z.of_nat (length xs + 1)))%Z = true).
  { apply andb_true_iff. split; [ apply Z.leb_le | apply Z.ltb_lt ]; lia. }
  rewrite Hin, Nat2Z.id, nth_error_app2, Nat.sub_diag by lia. reflexivity.
Qed.

Lemma getitem_nil {X : Type} (i : Z) : getitem (@nil X) i = Raise IndexError.
Proof.
  unfold getitem. cbv zeta.
  match goal with |- (if ?c then _ else _) = _ => destruct c end;
    [ rewrite nth_error_nil | ]; reflexivity.
Qed.

(** X6: Whatever the solver is, [rabbits(t)] is the first entry of the last row
    of the trajectory it returns for [[0, t]] and reads nothing else of it;
    a trajectory with no row, or whose last row is empty, raises
    [IndexError], and an exception of the solver comes out unchanged. *)
Theorem rabbits_reads_last_row
  (A : Type) (N : PyNum A) (odeint : solver (A := A)) (t : A) :
  match odeint drfdt [lit 300; lit 100] [lit 0; t] with
  | Raise e => rabbits odeint t = Raise e
  | Ok traj =>
      match rev traj with
      | [] => rabbits odeint t = Raise IndexError
      | [] :: _ => rabbits odeint t = Raise IndexError
      | (v :: _) :: _ => rabbits odeint t = Ok v
      end
  end.
Proof.
  unfold rabbits.
  destruct (odeint drfdt [lit 300; lit 100] [lit 0; t]) as [traj|e];
    [ | reflexivity ].
  destruct (rev traj) as [|row rows] eqn:Hrev.
  - apply (f_equal (@rev _)) in Hrev. rewrite rev_involutive in Hrev.
    subst traj. reflexivity.
  - apply (f_equal (@rev _)) in Hrev. rewrite rev_involutive in Hrev.
    simpl in Hrev. subst traj.
    unfold bind, getitem2. rewrite getitem_last. unfold bind.
    destruct row as [|v row]; [ apply getitem_nil | apply getitem_first ].
Qed.

(** ** The time grid in general *)

Section GridReal.

Local Open Scope R_scope.

(** X10: Over the reals, for [start <= stop], [linspace(start, stop, num)] has
    [num] points in non-decreasing order, begins at [start] and, from two
    points on, ends at [stop]: it is a time sequence the solver accepts,
    with the initial time first. *)
Theorem linspace_real_grid (start stop : R) (num : nat) :
  start <= stop ->
  length (linspace start stop num) = num /\
  nondecreasing (linspace start stop num) /\
  ((1 <= num)%nat -> getitem (linspace start stop num) 0 = Ok start) /\
  ((2 <= num)%nat -> getitem (linspace start stop num) (-1) = Ok stop).
Proof.
  intros Hle. split; [ apply linspace_length | ].
  split; [ apply linspace_real_sorted, Hle | ].
  destruct num as [|[|n]].
  - split; intros Hn; lia.
  - split; intros Hn; [ | lia ].
    unfold linspace. cbv zeta. rewrite getitem_first, num_of_nat_real.
    change (@num_add R PyNum_R) with Rplus.
    change (@num_mul R PyNum_R) with Rmult.
    simpl INR. f_equal. ring.
  - rewrite linspace_real_points. split; intros _.
    + cbn [seq map app]. rewrite getitem_first. simpl INR. f_equal. ring.
    + apply getitem_last.
Qed.

Lemma linspace_real_grid_witness :
  0 <= 100 /\
  length (linspace 0 100 100) = 100%nat /\
  nondecreasing (linspace 0 100 100) /\
  ((1 <= 100)%nat -> getitem (linspace 0 100 100) 0 = Ok 0) /\
  ((2 <= 100)%nat -> getitem (linspace 0 100 100) (-1) = Ok 100).
Proof.
  split; [ lra | apply (linspace_real_grid 0 100 100); lra ].
Defined.

End GridReal.

(** ** What the grading cell tells apart *)

Section Grading.

Local Open Scope R_scope.

Lemma passes_pair (a b x y : R) (t : R) (answer : list R -> R -> res (list R))
      (state : list R) :
  answer state t = Ok [a; b] ->
  passes (answer state t) [x; y] -> isclose a x /\ isclose b y.
Proof.
  intros Hval (d & Hd & Hclose). rewrite Hval in Hd. injection Hd as <-.
  inversion Hclose as [|? ? ? ? Ha Hrest]; subst.
  inversion Hrest as [|? ? ? ? Hb _]; subst.
  split; assumption.
Qed.

(** X11: The asserts of the grading cell fix g/L: a pendulum with coefficient
    [c] passes them only if [c] is within 0.00010001 of 10; and they refuse
    the small-angle pendulum, which has the right coefficient and the wrong
    nonlinearity. *)
Theorem acceptance_tells_answers_apart :
  (forall c, acceptance_of (pendulum_with c) -> Rabs (c - 10) <= 0.00010001) /\
  ~ acceptance_of small_angle.
Proof.
  split.
  - intros c (H1 & _ & _).
    apply (passes_pair 0 (- (c * sin (PI / 2)))) in H1; [ | reflexivity ].
    destruct H1 as [_ Hb]. rewrite sin_PI2 in Hb.
    unfold isclose, atol, rtol in Hb.
    rewrite (Rabs_left (-10.0)) in Hb by lra.
    replace (- (c * 1) - -10.0) with (- (c - 10)) in Hb by lra.
    rewrite Rabs_Ropp in Hb. lra.
  - intros (H1 & _ & _).
    apply (passes_pair 0 (- (10 * (PI / 2)))) in H1; [ | reflexivity ].
    destruct H1 as [_ Hb].
    unfold isclose, atol, rtol in Hb.
    rewrite (Rabs_left (-10.0)) in Hb by lra.
    pose proof PI2_3_2 as Hpi.
    rewrite Rabs_left in Hb by lra. lra.
Qed.

Lemma acceptance_tells_answers_apart_witness :
  acceptance_of (pendulum_with 10) /\ Rabs (10 - 10) <= 0.00010001.
Proof.
  split; [ exact acceptance_cell_passes | ].
  apply (proj1 acceptance_tells_answers_apart 10).
  exact acceptance_cell_passes.
Defined.

End Grading.

(** ** More on calls and cells in the kernel *)

Section KernelMore.

Context {A : Type} `{PyNum A}.
Local Open Scope num_scope.
Local Open Scope st_scope.

Lemma nth_error_extend_new (k : kernel A) (os : list (obj A)) (i : nat) :
  nth_error (objects (extend k os)) (length (objects k) + i) = nth_error os i.
Proof.
  simpl. rewrite nth_error_app2 by lia. f_equal. lia.
Qed.

Variable odeint : solver (A := A).

Lemma odeint_st_run (f : rhs) (k : kernel A) (y0 ts : nat) (ys tv : list A) :
  nth_error (objects k) y0 = Some (Array ys) ->
  nth_error (objects k) ts = Some (Array tv) ->
  odeint_st odeint f y0 ts k =
  match odeint f ys tv with
  | Ok traj => (Ok (length (objects k)), extend k [Matrix traj])
  | Raise e => (Raise e, k)
  end.
Proof.
  intros Hy0 Hts. unfold odeint_st, bindS, load, lift.
  rewrite Hy0. simpl. rewrite Hts. simpl.
  destruct (odeint f ys tv); reflexivity.
Qed.

(** X7: The forty-year cell: when the solver returns a trajectory, the cell
    binds [rf] to it and prints the rabbits line and then the foxes line
    from its last row.  The number on the rabbits line is [rabbits(40)].
    The lines are printed one by one: a last row without a second entry
    leaves the rabbits line printed and raises at the foxes line. *)
Theorem cell_forty_prints (k : kernel A) (traj : list (list A)) :
  odeint drfdt [lit 300; lit 100] [lit 0; lit 40] = Ok traj ->
  exists k',
    cell_forty odeint k =
      (bind (getitem2 traj (-1) 0) (fun _ =>
       bind (getitem2 traj (-1) 1) (fun _ => Ok tt)), k') /\
    stdout k' =
      stdout k ++
      match rabbits odeint (lit 40) with
      | Ok v =>
          [Num v; Text "rabbits"] ::
          match getitem2 traj (-1) 1 with
          | Ok w => [[Num w; Text "foxes"]]
          | Raise _ => []
          end
      | Raise _ => []
      end /\
    lookup "rf" (globals k') = Some (length (objects k) + 2)%nat /\
    nth_error (objects k') (length (objects k) + 2) = Some (Matrix traj).
Proof.
  intros Hrun.
  set (y0 := Array [lit 300; lit 100]).
  set (ts := Array [lit 0; lit 40]).
  set (k3 := extend k [y0; ts; Matrix traj]).
  assert (Hsolve : odeint_st odeint drfdt (length (objects k))
                     (length (objects (extend k [y0])))
                     (extend (extend k [y0]) [ts])
                   = (Ok (length (objects k) + 2)%nat, k3)).
  { rewrite (odeint_st_run drfdt _ _ _ [lit 300; lit 100] [lit 0; lit 40]).
    - rewrite Hrun. rewrite !extend_extend. simpl app. f_equal. f_equal.
      simpl. rewrite !length_app. simpl. lia.
    - rewrite extend_extend.
      rewrite <- (Nat.add_0_r (length (objects k))).
      rewrite nth_error_extend_new. reflexivity.
    - rewrite extend_extend. simpl length at 1.
      rewrite length_app. simpl length.
      rewrite nth_error_extend_new. reflexivity. }
  assert (Hmat : nth_error (objects k3) (length (objects k) + 2)
                 = Some (Matrix traj)).
  { unfold k3. rewrite nth_error_extend_new. reflexivity. }
  unfold rabbits. rewrite Hrun. cbn [bind].
  unfold cell_forty.
  unfold bindS at 1. unfold alloc at 1. fold y0.
  unfold bindS at 1. unfold alloc at 1. fold ts.
  unfold bindS at 1. rewrite Hsolve.
  unfold bindS at 1. unfold setglobal at 1.
  unfold bindS at 1. unfold getglobal at 1. cbn [globals lookup String.eqb Ascii.eqb Bool.eqb].
  unfold bindS at 1. unfold load at 1. cbn [objects]. rewrite Hmat.
  unfold bindS at 1. unfold lift at 1. cbn [as_matrix].
  unfold bindS at 1. unfold lift at 1.
  destruct (getitem2 traj (-1) 0) as [v|e0].
  - unfold bindS at 1. unfold print at 1.
    unfold bindS at 1. unfold getglobal at 1.
    cbn [globals lookup String.eqb Ascii.eqb Bool.eqb].
    unfold bindS at 1. unfold load at 1. cbn [objects]. rewrite Hmat.
    unfold bindS at 1. unfold lift at 1. cbn [as_matrix].
    unfold bindS at 1. unfold lift at 1.
    destruct (getitem2 traj (-1) 1) as [w|e1].
    + unfold print. eexists. split; [ reflexivity | ].
      cbn [stdout globals objects lookup String.eqb Ascii.eqb Bool.eqb].
      rewrite <- app_assoc. repeat split; try reflexivity. exact Hmat.
    + eexists. split; [ reflexivity | ].
      cbn [stdout globals objects lookup String.eqb Ascii.eqb Bool.eqb].
      repeat split; try reflexivity. exact Hmat.
  - eexists. split; [ reflexivity | ].
    cbn [stdout globals objects lookup String.eqb Ascii.eqb Bool.eqb].
    rewrite app_nil_r. repeat split; try reflexivity. exact Hmat.
Qed.

Variable minimize : minimizer A.

End KernelMore.

Section Rebinding.

Context {A : Type} `{PyNum A}.
Local Open Scope num_scope.
Local Open Scope st_scope.

Variable odeint : solver (A := A).


End Rebinding.

(** ** Instances of the kernel properties *)

Section KernelWitnesses.

Local Open Scope float_scope.

Lemma cell_forty_prints_witness :
  euler drfdt [lit 300; lit 100] [lit 0; lit 40]
    = Ok [[300; 100]; [780; 340]] /\
  exists k',
    cell_forty euler fresh_kernel = (Ok tt, k') /\
    stdout k' = [[Num 780; Text "rabbits"]; [Num 340; Text "foxes"]] /\
    lookup "rf" (globals k') = Some 2%nat /\
    nth_error (objects k') 2 = Some (Matrix [[300; 100]; [780; 340]]).
Proof.
  assert (Hrun : euler drfdt [lit 300; lit 100] [lit 0; lit 40]
                 = Ok [[300; 100]; [780; 340]])
    by (vm_compute; reflexivity).
  split; [ exact Hrun | ].
  destruct (cell_forty_prints euler fresh_kernel _ Hrun)
    as (k' & Hout & Hprinted & Hname & Hobj).
  exists k'. split; [ | split; [ | split ] ].
  - rewrite Hout. vm_compute. reflexivity.
  - rewrite Hprinted. vm_compute. reflexivity.
  - exact Hname.
  - exact Hobj.
Defined.


End KernelWitnesses.

(** ** A minimize cell that fails *)

Section FailedMinimize.

Context {A : Type} `{PyNum A}.
Local Open Scope num_scope.
Local Open Scope st_scope.

Variable odeint : solver (A := A).
Variable minimize : minimizer A.

(** X8: When the minimizer (or the objective under it) raises, the cell that
    defines [rabbits] and minimizes it lets the exception out after it has
    bound [rabbits] to a new function object, and that is all it does:
    [result] is bound as it was before, or not at all, and nothing is
    printed.  The report cell run afterwards therefore raises [NameError]
    if no earlier run had bound [result], and otherwise prints the
    minimiser of that earlier run. *)
Theorem failed_minimize_keeps_result (k : kernel A) (e : exn) :
  minimize (rabbits odeint) (lit 40) = Raise e ->
  let k' := {| objects := objects k ++ [Function "rabbits"];
               globals := ("rabbits"%string, length (objects k)) :: globals k;
               stdout := stdout k |} in
  cell_rabbits_minimize odeint minimize k = (Raise e, k') /\
  lookup "result" (globals k') = lookup "result" (globals k) /\
  (lookup "result" (globals k) = None ->
   cell_report k' = (Raise NameError, k')) /\
  (forall a r0,
      lookup "result" (globals k) = Some a ->
      nth_error (objects k) a = Some (Result r0) ->
      cell_report k' =
      (report_outcome r0,
       {| objects := objects k'; globals := globals k';
          stdout := stdout k ++ report_lines r0 |})).
Proof.
  intros Hfail k'.
  assert (Hname : lookup "result" (globals k') = lookup "result" (globals k))
    by reflexivity.
  split; [ | split; [ exact Hname | split ] ].
  - unfold cell_rabbits_minimize, cell_def_rabbits, cell_minimize.
    unfold bindS, alloc, setglobal, lift. simpl. rewrite Hfail. reflexivity.
  - intros Hnone. unfold cell_report, bindS, getglobal.
    rewrite Hname, Hnone. reflexivity.
  - intros a r0 Hbound Hobj.
    apply (cell_report_run k' a r0).
    + rewrite Hname. exact Hbound.
    + unfold k'. cbn [objects]. rewrite nth_error_app1; [ exact Hobj | ].
      apply nth_error_Some. congruence.
Qed.

End FailedMinimize.

(** A solver that refuses its input, under the stand-in minimizer.  On a
    fresh kernel the cell binds [rabbits] and raises, and the report cell
    then finds no [result].  On a kernel in which an earlier run has bound
    [result] to a record with minimiser 40, the report cell run after the
    failure prints that 40. *)
Lemma failed_minimize_keeps_result_witness :
  minimize_converged
    (rabbits (fun _ _ _ => Raise ValueError)) (lit (A := float) 40)
    = Raise ValueError /\
  cell_rabbits_minimize (fun _ _ _ => Raise ValueError) minimize_converged
    (fresh_kernel (A := float))
    = (Raise ValueError,
       {| objects := [Function "rabbits"];
          globals := [("rabbits"%string, 0%nat)];
          stdout := [] |}) /\
  cell_report
    {| objects := [Function (A := float) "rabbits"];
       globals := [("rabbits"%string, 0%nat)];
       stdout := [] |}
    = (Raise NameError,
       {| objects := [Function "rabbits"];
          globals := [("rabbits"%string, 0%nat)];
          stdout := [] |}) /\
  let earlier :=
    {| x := [40%float]; success := true; status := 0%Z;
       message := "Optimization terminated successfully.";
       fun_ := 261%float |} in
  fst (cell_report
         (snd (cell_rabbits_minimize
                 (fun _ _ _ => Raise ValueError) minimize_converged
                 {| objects := [Function "rabbits"; Result earlier];
                    globals := [("result"%string, 1%nat);
                                ("rabbits"%string, 0%nat)];
                    stdout := [[Repr (Result earlier)]] |})))
    = Ok tt /\
  stdout (snd (cell_report
         (snd (cell_rabbits_minimize
                 (fun _ _ _ => Raise ValueError) minimize_converged
                 {| objects := [Function "rabbits"; Result earlier];
                    globals := [("result"%string, 1%nat);
                                ("rabbits"%string, 0%nat)];
                    stdout := [[Repr (Result earlier)]] |}))))
    = [[Repr (Result earlier)];
       [Text "rabbits rebounded after"; Num 40%float; Text "years"]].
Proof.
  split; [ reflexivity | ].
  destruct (failed_minimize_keeps_result
              (fun _ _ _ => Raise ValueError) minimize_converged
              (fresh_kernel (A := float)) ValueError eq_refl)
    as (Hrun & _ & Hreport & _).
  split; [ exact Hrun | split; [ exact (Hreport eq_refl) | ] ].
  intros earlier.
  destruct (failed_minimize_keeps_result
              (fun _ _ _ => Raise ValueError) minimize_converged
              {| objects := [Function "rabbits"; Result earlier];
                 globals := [("result"%string, 1%nat);
                             ("rabbits"%string, 0%nat)];
                 stdout := [[Repr (Result earlier)]] |}
              ValueError eq_refl)
    as (Hrun2 & _ & _ & Hstale).
  rewrite Hrun2. cbn [snd].
  rewrite (Hstale 1%nat earlier eq_refl eq_refl).
  split; reflexivity.
Defined.
